(** * fht-compositor: window rules, animations and shell operations

    A shallow embedding of
    - [src/fht-compositor/src/config/types/rules.rs] ([WindowRulePattern::matches]),
    - [src/fht-compositor/src/utils/animation/mod.rs] ([Animation]),
    - [src/fht-compositor/src/shell/mod.rs] ([Fht::focus_target_under],
      [Fht::map_window], [Fht::unconstrain_popup],
      [Fht::visible_windows_for_output], [Fht::visible_output_for_surface],
      [State::handle_move_request]).

    [f64] values are Rocq's primitive IEEE-754 binary64 floats, so NaN,
    infinities and rounding behave as in Rust. Integer coordinates ([i32])
    are [Z]; indices ([usize]) are [nat]. *)

From Stdlib Require Import List String ZArith NArith Lia Bool.
From Stdlib Require Import Floats.
Import ListNotations.

(* ------------------------------------------------------------------ *)
(** ** [config/types/rules.rs] *)

Module Rules.

(** The parts of an [FhtWindow] that a rule pattern reads. *)
Record FhtWindow := mkFhtWindow {
  title : string;
  app_id : string;
}.

Record WindowRulePattern := mkWindowRulePattern {
  workspace : option nat;
  title_pat : option string;
  app_id_pat : option string;
}.

(** [WindowRulePattern::matches] *)
Definition matches (self : WindowRulePattern) (window : FhtWindow) (ws : nat) : bool :=
  match self.(workspace) with
  | Some workspace_idx => Nat.eqb workspace_idx ws
  | None =>
      match self.(title_pat) with
      | Some t => String.eqb window.(title) t
      | None =>
          match self.(app_id_pat) with
          | Some a => String.eqb window.(app_id) a
          | None => false
          end
      end
  end.

End Rules.

(* ------------------------------------------------------------------ *)
(** ** [utils/animation/mod.rs] *)

Module Anim.

Open Scope float_scope.

(** Rust's [x as f64] for an integer: round to nearest binary64. *)
Definition Z_as_f64 (z : Z) : float :=
  SF2Prim (binary_normalize prec emax z 0%Z false).

Definition NANOS_PER_SEC : N := 1000000000%N.

(** A [std::time::Duration], and a [Time<Monotonic>] (a timespec), as a
    whole number of nanoseconds: both are (seconds, nanoseconds < 10^9)
    pairs ordered lexicographically, which is the order of this count. *)
Definition Duration := N.
Definition Time := N.

(** [Duration::as_secs_f64]: [(secs as f64) + (nanos as f64) / (NANOS_PER_SEC as f64)]. *)
Definition as_secs_f64 (d : Duration) : float :=
  Z_as_f64 (Z.of_N (d / NANOS_PER_SEC)) +
  Z_as_f64 (Z.of_N (d mod NANOS_PER_SEC)) / Z_as_f64 (Z.of_N NANOS_PER_SEC).

(** smithay's [Time::elapsed(&earlier, later)]: [later - earlier],
    saturating at zero. *)
Definition elapsed (earlier later : Time) : Duration := (later - earlier)%N.

(** Rust's [f64::clamp(self, min, max)] (for [min <= max]); a NaN is
    returned unchanged. *)
Definition clamp (x lo hi : float) : float :=
  let x := if x <? lo then lo else x in
  if hi <? x then hi else x.

(** The curve kinds of [AnimationCurve]. The curve module is not part of
    the sources embedded here: each curve is given by the functions the
    animation calls on it ([y], [oscillate], [duration]). *)
Record Spring := mkSpring {
  oscillate : float -> float;
  spring_duration : Duration;
}.

Inductive AnimationCurve :=
| Simple (easing_y : float -> float)
| Cubic (cubic_y : float -> float)
| Spring_ (spring : Spring).

Record Animation := mkAnimation {
  start : float;
  end_ : float;
  current_value : float;
  curve : AnimationCurve;
  started_at : Time;
  current_time : Time;
  duration : Duration;
}.

(** [Animation::new]. [None] is the panic of the [assert!]; [now] is the
    value read from the monotonic clock. *)
Definition new (start end_ : float) (curve : AnimationCurve) (duration : Duration)
    (now : Time) : option Animation :=
  let asserted := negb (start =? end_) in
  if negb asserted then None
  else
    let duration :=
      match curve with
      | Spring_ spring => spring.(spring_duration)
      | _ => duration
      end in
    Some {| start := start; end_ := end_; current_value := start; curve := curve;
            started_at := now; current_time := now; duration := duration |}.

(** [Animation::set_current_time] *)
Definition set_current_time (self : Animation) (new_current_time : Time) : Animation :=
  let current_value :=
    match self.(curve) with
    | Simple y | Cubic y =>
        let el := as_secs_f64 (elapsed self.(started_at) new_current_time) in
        let total := as_secs_f64 self.(duration) in
        let x := clamp (el / total) 0 1 in
        y x * (self.(end_) - self.(start)) + self.(start)
    | Spring_ spring =>
        let el := as_secs_f64 (elapsed self.(started_at) new_current_time) in
        spring.(oscillate) el * (self.(end_) - self.(start)) + self.(start)
    end in
  {| start := self.(start); end_ := self.(end_); current_value := current_value;
     curve := self.(curve); started_at := self.(started_at);
     current_time := new_current_time; duration := self.(duration) |}.

(** [Animation::is_finished] *)
Definition is_finished (self : Animation) : bool :=
  N.leb self.(duration) (elapsed self.(started_at) self.(current_time)).

(** [Animation::value] *)
Definition value (self : Animation) : float := self.(current_value).

End Anim.

(* ------------------------------------------------------------------ *)
(** ** [shell/mod.rs] *)

Module Shell.

Open Scope Z_scope.

(** [Point<i32, _>] *)
Record Loc := mkLoc { x : Z; y : Z }.

Definition loc_add (a b : Loc) : Loc := mkLoc (a.(x) + b.(x)) (a.(y) + b.(y)).
Definition loc_sub (a b : Loc) : Loc := mkLoc (a.(x) - b.(x)) (a.(y) - b.(y)).

(** [Rectangle<i32, _>] *)
Record Rect := mkRect { loc : Loc; w : Z; h : Z }.

(** smithay's [Rectangle::overlaps]; [intersection] is [Some] exactly when
    the two rectangles overlap. *)
Definition overlaps (a b : Rect) : bool :=
  (a.(loc).(x) <? b.(loc).(x) + b.(w)) && (b.(loc).(x) <? a.(loc).(x) + a.(w)) &&
  (a.(loc).(y) <? b.(loc).(y) + b.(h)) && (b.(loc).(y) <? a.(loc).(y) + a.(h)).

(** smithay's [Rectangle::merge]: the smallest rectangle containing both. *)
Definition merge (a b : Rect) : Rect :=
  let x1 := Z.min a.(loc).(x) b.(loc).(x) in
  let y1 := Z.min a.(loc).(y) b.(loc).(y) in
  let x2 := Z.max (a.(loc).(x) + a.(w)) (b.(loc).(x) + b.(w)) in
  let y2 := Z.max (a.(loc).(y) + a.(h)) (b.(loc).(y) + b.(h)) in
  mkRect (mkLoc x1 y1) (x2 - x1) (y2 - y1).

(** Windows and layer surfaces are compared by identity. *)
Definition FhtWindow := nat.
Definition LayerSurface := nat.
Definition WlSurface := nat.
Definition Client := nat.

Record Output := mkOutput {
  out_id : nat;
  out_name : string;
  geometry : Rect;
}.

Record FullscreenSurface := mkFullscreenSurface {
  inner : FhtWindow;
  last_known_idx : nat;
}.

Record Workspace := mkWorkspace {
  windows : list FhtWindow;
  fullscreen : option FullscreenSurface;
}.

Definition empty_workspace : Workspace := mkWorkspace [] None.

Record WorkspaceSet := mkWorkspaceSet {
  workspaces : list Workspace;
  active_idx : nat;
}.

(** [WorkspaceSet::active] *)
Definition active (wset : WorkspaceSet) : Workspace :=
  nth wset.(active_idx) wset.(workspaces) empty_workspace.

Inductive FocusTarget :=
| FT_Window (w : FhtWindow)
| FT_LayerSurface (l : LayerSurface).

Inductive Layer := Background | Bottom | Top | Overlay.

(** The toplevel state a window is configured with. *)
Record WindowState := mkWindowState {
  tiled : bool;
  fullscreen_state : bool;
}.

(** The compositor state [Fht] read and written by the operations below. *)
Record Fht := mkFht {
  outputs : list Output;
  (** Modelled from the spec: [Fht::wset_for] / [wset_mut_for] (state.rs)
      give the workspace set of an output; every output owns one, so the
      map from output ids to workspace sets is total. *)
  wsets : nat -> WorkspaceSet;
  pending_windows : list (FhtWindow * Output);
  focus_output : option Output;
  focus_target : option FocusTarget;
  window_state : FhtWindow -> WindowState;
  (** The client owning the window's [wl_surface], when there is one. *)
  client_of : FhtWindow -> option Client;
}.

Definition wset_for (s : Fht) (o : Output) : WorkspaceSet := s.(wsets) o.(out_id).

(** The outcome of a call: it returns normally with a result, or panics. *)
Inductive Outcome (A : Type) :=
| Returned (a : A)
| Panicked.
Arguments Returned {A} a.
Arguments Panicked {A}.

(** *** [Fht::focus_target_under] *)

Section Focus.

(** Point type of the pointer ([Point<f64, Logical>]). *)
Variable Point : Type.
(** [layer_map_for_output(o).layer_under(layer, point)] *)
Variable layer_under : Output -> Layer -> Point -> option LayerSurface.
(** [layer_map.layer_geometry(layer).unwrap().loc] *)
Variable layer_loc : Output -> LayerSurface -> Loc.
(** [Workspace::window_under(point)]: a window hit at the point, and its
    location. *)
Variable window_under : Workspace -> Point -> option (FhtWindow * Loc).

Definition focus_target_under (s : Fht) (point : Point) : option (FocusTarget * Loc) :=
  match s.(focus_output) with
  | None => None
  | Some output =>
      let active_ws := active (wset_for s output) in
      let output_geometry := output.(geometry) in
      match layer_under output Overlay point with
      | Some layer => Some (FT_LayerSurface layer, loc_add output_geometry.(loc) (layer_loc output layer))
      | None =>
      match option_map inner active_ws.(fullscreen) with
      | Some fs => Some (FT_Window fs, output.(geometry).(loc))
      | None =>
      match layer_under output Top point with
      | Some layer => Some (FT_LayerSurface layer, loc_add output_geometry.(loc) (layer_loc output layer))
      | None =>
      match window_under active_ws point with
      | Some (window, l) => Some (FT_Window window, l)
      | None =>
      match match layer_under output Bottom point with
            | Some l => Some l
            | None => layer_under output Background point
            end with
      | Some layer => Some (FT_LayerSurface layer, loc_add output_geometry.(loc) (layer_loc output layer))
      | None => None
      end end end end end
  end.

(** The resolver as the spec describes it: a fixed list of candidate hits
    in z-order, the first one present wins. *)
Fixpoint first_hit {A} (l : list (option A)) : option A :=
  match l with
  | [] => None
  | Some a :: _ => Some a
  | None :: l => first_hit l
  end.

Definition focus_scan_spec (s : Fht) (point : Point) : option (FocusTarget * Loc) :=
  match s.(focus_output) with
  | None => None
  | Some output =>
      let active_ws := active (wset_for s output) in
      let at_layer l := (FT_LayerSurface l, loc_add output.(geometry).(loc) (layer_loc output l)) in
      first_hit
        [ option_map at_layer (layer_under output Overlay point);
          option_map (fun fs => (FT_Window fs.(inner), output.(geometry).(loc))) active_ws.(fullscreen);
          option_map at_layer (layer_under output Top point);
          option_map (fun '(window, l) => (FT_Window window, l)) (window_under active_ws point);
          option_map at_layer (layer_under output Bottom point);
          option_map at_layer (layer_under output Background point) ]
  end.

End Focus.

(** *** [Fht::map_window] *)

(** [Iterator::position] *)
Fixpoint position {A} (f : A -> bool) (l : list A) : option nat :=
  match l with
  | [] => None
  | a :: l => if f a then Some 0%nat else option_map S (position f l)
  end.

(** [Vec::remove] at an index known to be in range. *)
Fixpoint remove_at {A} (i : nat) (l : list A) : list A :=
  match i, l with
  | _, [] => []
  | O, _ :: l => l
  | S i, a :: l => a :: remove_at i l
  end.

(** [Vec::insert]: panics when the index is past the end. *)
Definition vec_insert {A} (i : nat) (a : A) (l : list A) : Outcome (list A) :=
  if Nat.leb i (List.length l) then Returned (firstn i l ++ a :: skipn i l) else Panicked.

(** [v[i] = a] *)
Fixpoint replace_nth {A} (i : nat) (a : A) (l : list A) : list A :=
  match i, l with
  | _, [] => []
  | O, _ :: l => a :: l
  | S i, b :: l => b :: replace_nth i a l
  end.

(** [WindowMapSettings] (the private struct of shell/mod.rs) *)
Record WindowMapSettings := mkWindowMapSettings {
  floating : bool;
  ms_fullscreen : bool;
  ms_output : option string;
  ms_workspace : option nat;
}.

Definition dummy_settings : WindowMapSettings :=
  mkWindowMapSettings false false None None.

(** Modelled from the spec: [Workspace::insert_window] (workspaces.rs)
    "inserts the new window into the destination workspace's tiled
    sequence"; the new window is appended. *)
Definition insert_window (ws : Workspace) (window : FhtWindow) : Workspace :=
  mkWorkspace (ws.(windows) ++ [window]) ws.(fullscreen).

(** The fullscreen block of [map_window]: take the fullscreen slot out and
    put its window back at [last_known_idx.clamp(0, len.saturating_sub(1))]. *)
Definition restore_fullscreen (workspace : Workspace) : Outcome Workspace :=
  match workspace.(fullscreen) with
  | None => Returned workspace
  | Some fs =>
      let last_known_idx :=
        Nat.min (Nat.max 0 fs.(last_known_idx)) (List.length workspace.(windows) - 1) in
      match vec_insert last_known_idx fs.(inner) workspace.(windows) with
      | Returned ws => Returned (mkWorkspace ws None)
      | Panicked => Panicked
      end
  end.

(** The restore step as the spec states it: the slot's window goes back
    at [last_known_idx] clamped into [[0, window_count]]. *)
Definition restore_fullscreen_spec (workspace : Workspace) : Workspace :=
  match workspace.(fullscreen) with
  | None => workspace
  | Some fs =>
      let i := Nat.min fs.(last_known_idx) (List.length workspace.(windows)) in
      mkWorkspace (firstn i workspace.(windows) ++ fs.(inner) :: skipn i workspace.(windows)) None
  end.

Section MapWindow.

(** [CONFIG.general.focus_new_windows] *)
Variable focus_new_windows : bool.

Definition map_window (s : Fht) (window : FhtWindow) : Outcome Fht :=
  match position (fun p => Nat.eqb (fst p) window) s.(pending_windows) with
  | None => Returned s (* warn!("Tried to map an invalid window!") *)
  | Some idx =>
  match nth_error s.(pending_windows) idx with
  | None => Panicked
  | Some (window, output) =>
  let pending_windows := remove_at idx s.(pending_windows) in
  let settings := dummy_settings in
  (* [window.wl_surface().unwrap()] and [get_client(..).unwrap()] *)
  match s.(client_of) window with
  | None => Panicked
  | Some _ =>
  (* [set_tiled(!floating)] and [set_fullscreen(fullscreen, wl_output)] *)
  let window_state := fun w' =>
    if Nat.eqb w' window
    then mkWindowState (negb settings.(floating)) settings.(ms_fullscreen)
    else s.(window_state) w' in
  let output :=
    match match settings.(ms_output) with
          | Some name => find (fun o => String.eqb o.(out_name) name) s.(outputs)
          | None => None
          end with
    | Some target_output => target_output
    | None => output
    end in
  let wset := wset_for s output in
  let ws_idx :=
    match settings.(ms_workspace) with
    | Some idx => Nat.min (Nat.max 0 idx) 8
    | None => wset.(active_idx)
    end in
  match nth_error wset.(workspaces) ws_idx with
  | None => Panicked
  | Some workspace =>
  match restore_fullscreen workspace with
  | Panicked => Panicked
  | Returned workspace =>
  let workspace := insert_window workspace window in
  let wset := mkWorkspaceSet (replace_nth ws_idx workspace wset.(workspaces)) wset.(active_idx) in
  Returned {| outputs := s.(outputs);
              wsets := fun id => if Nat.eqb id output.(out_id) then wset else s.(wsets) id;
              pending_windows := pending_windows;
              focus_output := s.(focus_output);
              focus_target := if focus_new_windows then Some (FT_Window window) else s.(focus_target);
              window_state := window_state;
              client_of := s.(client_of) |}
  end end end end end.

End MapWindow.

(** *** [Fht::unconstrain_popup] *)

(** The parts of an xdg popup the constraint solver reads. *)
Record PopupSurface := mkPopupSurface {
  (** [find_popup_root_surface]: [None] for the [Err] case. *)
  popup_root : option WlSurface;
  (** [get_popup_toplevel_coords] *)
  popup_toplevel_coords : Loc;
}.

Section Popup.

(** [Fht::find_window]: the mapped window of a surface. *)
Variable find_window : Fht -> WlSurface -> option FhtWindow.
(** [FhtWindow::global_geometry] *)
Variable global_geometry : FhtWindow -> Rect.

(** [Fht::visible_outputs_for_window] *)
Definition visible_outputs_for_window (s : Fht) (window : FhtWindow) : list Output :=
  filter (fun o => overlaps o.(geometry) (global_geometry window)) s.(outputs).

(** The result is the rectangle handed to
    [positioner.get_unconstrained_geometry], or [None] when the call
    returns early. *)
Definition unconstrain_popup (s : Fht) (popup : PopupSurface) : Outcome (option Rect) :=
  match popup.(popup_root) with
  | None => Returned None
  | Some root =>
  match find_window s root with
  | None => Returned None
  | Some window =>
  (* [outputs_for_window.next().is_none()] consumes the first output *)
  match visible_outputs_for_window s window with
  | [] => Returned None
  | _ :: outputs_for_window =>
  (* [outputs_for_window.next().unwrap()] *)
  match outputs_for_window with
  | [] => Panicked
  | o :: outputs_for_window =>
  let outputs_geo :=
    fold_left (fun g output => merge g output.(geometry)) outputs_for_window o.(geometry) in
  let target := outputs_geo in
  let target := mkRect (loc_sub target.(loc) popup.(popup_toplevel_coords)) target.(w) target.(h) in
  let target := mkRect (loc_sub target.(loc) (global_geometry window).(loc)) target.(w) target.(h) in
  Returned (Some target)
  end end end end.

(** The target as the spec states it: the union of every output the
    window intersects, translated into popup-local space. *)
Definition union_target_spec (s : Fht) (popup : PopupSurface) (window : FhtWindow) : option Rect :=
  match visible_outputs_for_window s window with
  | [] => None
  | o :: os =>
      let u := fold_left (fun g output => merge g output.(geometry)) os o.(geometry) in
      Some (mkRect (loc_sub (loc_sub u.(loc) popup.(popup_toplevel_coords)) (global_geometry window).(loc))
                   u.(w) u.(h))
  end.

End Popup.

(** *** [Fht::visible_windows_for_output] *)

(** [switch_animation] is the workspace set's [switch_animation] field,
    given by its [target_idx]. Indexing [wset.workspaces[target_idx]]
    panics out of range. *)
Definition visible_windows_for_output (s : Fht) (switch_animation : option nat) (output : Output)
  : Outcome (list FhtWindow) :=
  let wset := wset_for s output in
  match switch_animation with
  | Some target_idx =>
      let active := active wset in
      match nth_error wset.(workspaces) target_idx with
      | None => Panicked
      | Some target =>
          match match option_map inner active.(fullscreen) with
                | Some f => Some f
                | None => option_map inner target.(fullscreen)
                end with
          | Some fs => Returned [fs]
          | None => Returned (active.(windows) ++ target.(windows))
          end
      end
  | None =>
      let active := active wset in
      match option_map inner active.(fullscreen) with
      | Some fs => Returned [fs]
      | None => Returned active.(windows)
      end
  end.

(** *** [Fht::visible_output_for_surface] *)

(** Modelled from the spec: [Fht::workspaces] (state.rs) iterates the
    workspace set of every output, each output owning one. *)
Definition workspaces_of (s : Fht) : list (Output * WorkspaceSet) :=
  map (fun o => (o, wset_for s o)) s.(outputs).

(** [Iterator::find_map] *)
Fixpoint find_map {A B} (f : A -> option B) (l : list A) : option B :=
  match l with
  | [] => None
  | a :: l => match f a with Some b => Some b | None => find_map f l end
  end.

Section VisibleOutput.

(** [layer_map_for_output(o).layer_for_surface(surface, ALL).is_some()] *)
Variable layer_for_surface : Output -> WlSurface -> bool.
(** The surfaces [LayerSurface::with_surfaces] visits. *)
Variable layer_surfaces : LayerSurface -> list WlSurface.
(** [FhtWindow::has_surface(surface, ALL)] *)
Variable has_surface : FhtWindow -> WlSurface -> bool.

Definition visible_output_for_surface (s : Fht) (pending_layers : list (LayerSurface * Output))
    (surface : WlSurface) : option Output :=
  match find (fun o => layer_for_surface o surface) s.(outputs) with
  | Some o => Some o
  | None =>
  match find_map (fun '(l, output) =>
                    let found := existsb (fun s' => Nat.eqb s' surface) (layer_surfaces l) in
                    if found then Some output else None) pending_layers with
  | Some o => Some o
  | None =>
  find_map (fun '(o, wset) =>
              let active := active wset in
              if existsb (fun w => has_surface w surface) active.(windows) then Some o
              else match active.(fullscreen) with
                   | Some f => if has_surface f.(inner) surface then Some o else None
                   | None => None
                   end) (workspaces_of s)
  end end.

End VisibleOutput.

(** *** [State::handle_move_request] *)

Definition Serial := nat.

(** [GrabStartData]: the surface of the focus the grab started on, with
    its location. *)
Record GrabStartData := mkGrabStartData {
  start_focus : option (WlSurface * Loc);
}.

(** The pointer grab in place: the implicit grab of a button press, or a
    [MoveSurfaceGrab]. *)
Inductive Grab :=
| OtherGrab (start_data : GrabStartData)
| MoveSurfaceGrab (start_data : GrabStartData) (window : FhtWindow) (initial_window_location : Loc).

Definition grab_start (g : Grab) : GrabStartData :=
  match g with
  | OtherGrab sd => sd
  | MoveSurfaceGrab sd _ _ => sd
  end.

(** The parts of [State] the move request reads and writes. *)
Record MoveState := mkMoveState {
  (** [GrabStatus::Active(serial, grab)], or no active grab *)
  pointer_grab : option (Serial * Grab);
  pointer_focus : option WlSurface;
  pointer_location : float * float;
  maximized : FhtWindow -> bool;
  is_fullscreen : FhtWindow -> bool;
  configures_sent : FhtWindow -> nat;
}.

Section Move.

(** [FhtWindow::wl_surface] *)
Variable wl_surface : FhtWindow -> option WlSurface.
(** [FhtWindow::global_geometry] *)
Variable window_geometry : FhtWindow -> Rect.
(** [window.0.toplevel().is_some()]: the window is an xdg toplevel. *)
Variable has_toplevel : FhtWindow -> bool.
(** The client owning a surface, while it is alive. *)
Variable surface_client : WlSurface -> option Client.

(** [same_client_as]: both surfaces alive and owned by one client. *)
Definition same_client_as (a b : WlSurface) : bool :=
  match surface_client a, surface_client b with
  | Some c1, Some c2 => Nat.eqb c1 c2
  | _, _ => false
  end.

(** [PointerHandle::has_grab] *)
Definition has_grab (st : MoveState) (serial : Serial) : bool :=
  match st.(pointer_grab) with
  | Some (s, _) => Nat.eqb s serial
  | None => false
  end.

(** [PointerHandle::grab_start_data] *)
Definition grab_start_data (st : MoveState) : option GrabStartData :=
  option_map (fun p => grab_start (snd p)) st.(pointer_grab).

(** Rust's [f as i32]: truncation toward zero, saturating at the [i32]
    bounds, NaN to 0. *)
Definition f64_as_i32 (f : float) : Z :=
  let lo := - 2 ^ 31 in
  let hi := 2 ^ 31 - 1 in
  match Prim2SF f with
  | S754_zero _ | S754_nan => 0
  | S754_infinity sign => if sign then lo else hi
  | S754_finite sign m e =>
      let mag := if 0 <=? e then Z.shiftl (Zpos m) e else Z.shiftr (Zpos m) (- e) in
      Z.max lo (Z.min hi (if sign then - mag else mag))
  end.

Definition set_flag {A} (f : FhtWindow -> A) (window : FhtWindow) (v : A) : FhtWindow -> A :=
  fun w' => if Nat.eqb w' window then v else f w'.

Definition handle_move_request (st : MoveState) (window : FhtWindow) (serial : Serial) : MoveState :=
  if negb (has_grab st serial) then st else
  match grab_start_data st with
  | None => st
  | Some start_data =>
  match wl_surface window with
  | None => st
  | Some surface =>
  match start_data.(start_focus) with
  | None => st
  | Some (focus, _) =>
  if negb (same_client_as focus surface) then st else
  let window_geo := window_geometry window in
  let was_maximized := st.(maximized) window in
  let was_fullscreen := st.(is_fullscreen) window in
  let '(maximized, fullscreen, configures, initial_window_location) :=
    if was_maximized || was_fullscreen then
      let pos := st.(pointer_location) in
      (set_flag st.(maximized) window false,
       set_flag st.(is_fullscreen) window false,
       (if has_toplevel window
        then set_flag st.(configures_sent) window (S (st.(configures_sent) window))
        else st.(configures_sent)),
       mkLoc (f64_as_i32 (fst pos)) (f64_as_i32 (snd pos)))
    else (st.(maximized), st.(is_fullscreen), st.(configures_sent), window_geo.(loc)) in
  let fullscreen := set_flag fullscreen window false in
  {| pointer_grab := Some (serial, MoveSurfaceGrab start_data window initial_window_location);
     pointer_focus := None;
     pointer_location := st.(pointer_location);
     maximized := maximized;
     is_fullscreen := fullscreen;
     configures_sent := configures |}
  end end end.

End Move.

End Shell.

(* ================================================================== *)
(** * Properties *)

Module RulesFacts.
Import Rules.

(** C8: [matches] consults exactly one criterion, in the fixed order
    workspace index, title, app id; a pattern with no criterion never
    matches. A pattern with workspace 2 and title "foo" matches a window
    titled "bar" on workspace 2 and not a window titled "foo" on
    workspace 3. *)
Theorem matches_precedence :
  (forall p win ws,
     (forall i, p.(workspace) = Some i -> matches p win ws = Nat.eqb i ws) /\
     (forall t, p.(workspace) = None -> p.(title_pat) = Some t ->
        matches p win ws = String.eqb win.(title) t) /\
     (forall a, p.(workspace) = None -> p.(title_pat) = None -> p.(app_id_pat) = Some a ->
        matches p win ws = String.eqb win.(app_id) a) /\
     (p.(workspace) = None -> p.(title_pat) = None -> p.(app_id_pat) = None ->
        matches p win ws = false)) /\
  (forall app,
     let p := mkWindowRulePattern (Some 2%nat) (Some "foo"%string) None in
     matches p (mkFhtWindow "bar" app) 2 = true /\
     matches p (mkFhtWindow "foo" app) 3 = false).
Proof.
  split.
  - intros [pw pt pa] win ws; cbn.
    repeat split; intros; subst; cbn in *; subst; reflexivity.
  - intros app; split; reflexivity.
Qed.

End RulesFacts.

Module AnimFacts.
Import Anim.
Open Scope float_scope.

(** C10: construction fails (the [assert!] panics) exactly when
    [start == end] holds as an [f64] comparison, whatever the curve and
    duration; for [start != end] it succeeds. *)
Theorem new_fails_iff_start_eq_end start end_ curve duration now :
  new start end_ curve duration now = None <-> (start =? end_) = true.
Proof.
  unfold new.
  destruct (start =? end_); cbn; split; intro H; try reflexivity; discriminate.
Qed.

(** C7: an animation built with a Spring curve takes the spring's own
    settling duration, whatever duration was passed; with a Simple or a
    Cubic curve it keeps the duration passed. *)
Theorem new_effective_duration start end_ curve dur now a
  (H : new start end_ curve dur now = Some a) :
  a.(duration) = match curve with
                 | Spring_ spring => spring.(spring_duration)
                 | Simple _ | Cubic _ => dur
                 end.
Proof.
  unfold new in H.
  destruct (start =? end_); cbn in H; [discriminate|].
  injection H as <-; cbn.
  destruct curve; reflexivity.
Qed.

Definition test_spring : Spring := mkSpring (fun t => t) 750000000%N.

Lemma new_effective_duration_witness :
  exists a, new 0 1 (Spring_ test_spring) 5%N 0%N = Some a /\ a.(duration) = 750000000%N.
Proof.
  eexists; split; [reflexivity|].
  apply (new_effective_duration 0 1 (Spring_ test_spring) 5%N 0%N).
  reflexivity.
Defined.

(** The linear easing [y(x) = x]. *)
Definition linear : AnimationCurve := Simple (fun x => x).

(** C6 (code): the easing progress is meant to be normalised into
    [[0.0, 1.0]] by [(elapsed / total).clamp(0., 1.)], but with a zero
    duration at elapsed 0 the division is [0/0 = NaN] and [f64::clamp]
    leaves NaN unchanged: the progress handed to the linear curve
    [y(x) = x] is outside [[0, 1]], so the value is NaN, neither [start]
    nor the value at progress 1.0, although the animation is finished. *)
Lemma animation_zero_duration_progress_nan :
  match new 0 1 linear 0%N 5%N with
  | Some a =>
      let a' := set_current_time a 5%N in
      let x := clamp (as_secs_f64 (elapsed a.(started_at) 5%N)
                        / as_secs_f64 a.(duration)) 0 1 in
      PrimFloat.is_nan x = true /\
      PrimFloat.leb 0 x = false /\ PrimFloat.leb x 1 = false /\
      is_finished a' = true /\
      PrimFloat.is_nan (value a') = true /\
      (value a' =? a.(start)) = false /\
      (value a' =? 1 * (a.(end_) - a.(start)) + a.(start)) = false
  | None => False
  end.
Proof. vm_compute. repeat split. Qed.

(** A freshly built animation reads [start], its clock is at its start
    time, and it is finished already exactly when its duration is zero. *)
Theorem new_initial_state start end_ curve dur now a
  (H : new start end_ curve dur now = Some a) :
  value a = start /\ a.(started_at) = now /\ a.(current_time) = now /\
  (is_finished a = true <-> a.(duration) = 0%N).
Proof.
  unfold new in H.
  destruct (start =? end_); cbn in H; [discriminate|].
  injection H as <-.
  unfold is_finished, value, elapsed; cbn.
  rewrite N.sub_diag, N.leb_le.
  split; [reflexivity|split; [reflexivity|split; [reflexivity|]]].
  lia.
Qed.

Lemma new_initial_state_witness :
  exists a, new 0 1 linear 0%N 7%N = Some a /\ is_finished a = true.
Proof.
  eexists; split; [reflexivity|].
  apply (new_initial_state 0 1 linear 0%N 7%N); reflexivity.
Defined.

(** [set_current_time] keeps no history: setting the time twice is setting
    it once to the later call's time, and it never changes the start, end,
    curve, start time or duration. *)
Theorem set_current_time_last_wins (a : Animation) (t1 t2 : Time) :
  set_current_time (set_current_time a t1) t2 = set_current_time a t2 /\
  let a' := set_current_time a t1 in
  a'.(start) = a.(start) /\ a'.(end_) = a.(end_) /\ a'.(curve) = a.(curve) /\
  a'.(started_at) = a.(started_at) /\ a'.(duration) = a.(duration) /\
  a'.(current_time) = t1.
Proof.
  split; [|repeat split].
  unfold set_current_time; cbn.
  destruct (curve a); reflexivity.
Qed.

(** Once finished, an animation stays finished at every later time. *)
Theorem is_finished_monotone (a : Animation) (t t' : Time)
  (Hfin : is_finished (set_current_time a t) = true) (Hle : (t <= t')%N) :
  is_finished (set_current_time a t') = true.
Proof.
  unfold is_finished, set_current_time, elapsed in *; cbn in *.
  rewrite N.leb_le in *. lia.
Qed.

Lemma is_finished_monotone_witness :
  match new 0 1 linear 1000%N 0%N with
  | Some a => is_finished (set_current_time a 5000%N) = true
  | None => False
  end.
Proof.
  apply (is_finished_monotone _ 1000%N 5000%N); [reflexivity | lia].
Defined.

(** A time before the start time counts as the start time: the elapsed time
    saturates at zero, so the value and [is_finished] are those at the
    start. *)
Theorem set_current_time_before_start (a : Animation) (t : Time)
  (Hbefore : (t <= a.(started_at))%N) :
  value (set_current_time a t) = value (set_current_time a a.(started_at)) /\
  is_finished (set_current_time a t) = is_finished (set_current_time a a.(started_at)).
Proof.
  assert (Hel : elapsed a.(started_at) t = elapsed a.(started_at) a.(started_at)).
  { unfold elapsed. lia. }
  unfold value, is_finished, set_current_time; cbn.
  rewrite Hel. split; [|reflexivity].
  destruct (curve a); reflexivity.
Qed.

Lemma set_current_time_before_start_witness :
  match new 0 1 linear 1000%N 50%N with
  | Some a =>
      value (set_current_time a 10%N) = value (set_current_time a a.(started_at)) /\
      is_finished (set_current_time a 10%N) = is_finished (set_current_time a a.(started_at))
  | None => False
  end.
Proof.
  apply (set_current_time_before_start _ 10%N). cbn. lia.
Defined.

End AnimFacts.

Module ShellFacts.
Import Shell.
Open Scope Z_scope.

Lemma position_none {A} (f : A -> bool) (l : list A) :
  (forall a, In a l -> f a = false) -> position f l = None.
Proof.
  induction l as [|a l IH]; intro Hf; cbn; [reflexivity|].
  rewrite (Hf a (or_introl eq_refl)), IH; [reflexivity|].
  intros b Hb; apply Hf; right; exact Hb.
Qed.

(** C9: mapping a window that is not pending leaves the whole compositor
    state unchanged and returns normally. *)
Theorem map_window_absent_noop (focus_new_windows : bool) (s : Fht) (window : FhtWindow)
  (Habsent : ~ In window (map fst s.(pending_windows))) :
  map_window focus_new_windows s window = Returned s.
Proof.
  unfold map_window.
  rewrite position_none; [reflexivity|].
  intros [w o] Hin; cbn.
  apply Nat.eqb_neq; intros ->.
  apply Habsent, (in_map fst _ _ Hin).
Qed.

(** A small compositor: one output [out0] 1920x1080 at the origin, its
    active workspace holding [ws0]. *)
Definition out0 : Output := mkOutput 0 "DP-1" (mkRect (mkLoc 0 0) 1920 1080).
Definition out1 : Output := mkOutput 1 "DP-2" (mkRect (mkLoc 1920 0) 1920 1080).

Definition fht_with (outs : list Output) (ws0 : Workspace) (pending : list (FhtWindow * Output))
  : Fht :=
  {| outputs := outs;
     wsets := fun _ => mkWorkspaceSet [ws0] 0;
     pending_windows := pending;
     focus_output := Some out0;
     focus_target := None;
     window_state := fun _ => mkWindowState true false;
     client_of := fun _ => Some 0%nat |}.

Lemma map_window_absent_noop_witness :
  ~ In 7%nat (map fst (fht_with [out0] (mkWorkspace [1%nat] None) [(3%nat, out0)]).(pending_windows)) /\
  map_window true (fht_with [out0] (mkWorkspace [1%nat] None) [(3%nat, out0)]) 7%nat
  = Returned (fht_with [out0] (mkWorkspace [1%nat] None) [(3%nat, out0)]).
Proof.
  split.
  - cbn; intros [H|[]]; discriminate.
  - apply map_window_absent_noop. cbn; intros [H|[]]; discriminate.
Defined.

Section FocusFacts.

Variable Point : Type.
Variable layer_under : Output -> Layer -> Point -> option LayerSurface.
Variable layer_loc : Output -> LayerSurface -> Loc.
Variable window_under : Workspace -> Point -> option (FhtWindow * Loc).

(** C4: [focus_target_under] is [None] without a focused output, and
    otherwise the first hit of the fixed scan: overlay layer, the active
    workspace's fullscreen window, top layer, the active workspace's
    windows, bottom layer, background layer. *)
Theorem focus_target_under_scan (s : Fht) (point : Point) :
  focus_target_under Point layer_under layer_loc window_under s point
  = focus_scan_spec Point layer_under layer_loc window_under s point.
Proof.
  unfold focus_target_under, focus_scan_spec.
  destruct (focus_output s) as [output|]; [|reflexivity].
  destruct (layer_under output Overlay point); [reflexivity|].
  destruct (fullscreen (active (wset_for s output))); [reflexivity|].
  destruct (layer_under output Top point); [reflexivity|].
  destruct (window_under (active (wset_for s output)) point) as [[win l]|]; [reflexivity|].
  destruct (layer_under output Bottom point); [reflexivity|].
  destruct (layer_under output Background point); reflexivity.
Qed.

(** C5: once no overlay surface is hit, an occupied fullscreen slot of the
    active workspace is the target at every point, with no containment test
    and whatever the top, bottom and background layers and the ordinary
    windows hold there. *)
Theorem focus_fullscreen_unconditional (s : Fht) (point : Point) (output : Output)
  (fs : FullscreenSurface)
  (Hout : s.(focus_output) = Some output)
  (Hoverlay : layer_under output Overlay point = None)
  (Hfs : (active (wset_for s output)).(fullscreen) = Some fs) :
  focus_target_under Point layer_under layer_loc window_under s point
  = Some (FT_Window fs.(inner), output.(geometry).(loc)).
Proof.
  unfold focus_target_under.
  rewrite Hout, Hoverlay, Hfs.
  reflexivity.
Qed.

End FocusFacts.

(** The pointer at (5000, 5000), far outside everything, with a fullscreen
    window 1 and a top-layer surface and a window under every point. *)
Lemma focus_fullscreen_unconditional_witness :
  focus_target_under (Z * Z)
    (fun _ layer _ => match layer with Overlay => None | _ => Some 9%nat end)
    (fun _ _ => mkLoc 0 0)
    (fun _ _ => Some (2%nat, mkLoc 0 0))
    (fht_with [out0] (mkWorkspace [2%nat] (Some (mkFullscreenSurface 1%nat 0%nat))) [])
    (5000, 5000)
  = Some (FT_Window 1%nat, mkLoc 0 0).
Proof.
  apply (focus_fullscreen_unconditional (Z * Z)
           (fun _ layer _ => match layer with Overlay => None | _ => Some 9%nat end)
           (fun _ _ => mkLoc 0 0)
           (fun _ _ => Some (2%nat, mkLoc 0 0))
           (fht_with [out0] (mkWorkspace [2%nat] (Some (mkFullscreenSurface 1%nat 0%nat))) [])
           (5000, 5000) out0 (mkFullscreenSurface 1%nat 0%nat));
    reflexivity.
Defined.

(** The focus-precedence scenario of the spec: overlay surface 8, fullscreen
    window 1 and tiled window 2 all under the pointer. *)
Definition overlay_at (present : bool) : Output -> Layer -> Z * Z -> option LayerSurface :=
  fun _ layer _ => match layer with Overlay => if present then Some 8%nat else None | _ => None end.
Definition tiled_at : Workspace -> Z * Z -> option (FhtWindow * Loc) :=
  fun ws _ => match ws.(windows) with [] => None | win :: _ => Some (win, mkLoc 0 0) end.

Example focus_precedence_overlay :
  focus_target_under (Z * Z) (overlay_at true) (fun _ _ => mkLoc 0 0) tiled_at
    (fht_with [out0] (mkWorkspace [2%nat] (Some (mkFullscreenSurface 1%nat 0%nat))) []) (10, 10)
  = Some (FT_LayerSurface 8%nat, mkLoc 0 0).
Proof. reflexivity. Qed.

Example focus_precedence_fullscreen :
  focus_target_under (Z * Z) (overlay_at false) (fun _ _ => mkLoc 0 0) tiled_at
    (fht_with [out0] (mkWorkspace [2%nat] (Some (mkFullscreenSurface 1%nat 0%nat))) []) (10, 10)
  = Some (FT_Window 1%nat, mkLoc 0 0).
Proof. reflexivity. Qed.

Example focus_precedence_tiled :
  focus_target_under (Z * Z) (overlay_at false) (fun _ _ => mkLoc 0 0) tiled_at
    (fht_with [out0] (mkWorkspace [2%nat] None) []) (10, 10)
  = Some (FT_Window 2%nat, mkLoc 0 0).
Proof. reflexivity. Qed.

(** Window 1 was fullscreened from the end of [[2; 1]]: the slot remembers
    index 1 and the tiled sequence is [[2]]. Window 3 is pending. *)
Definition ws_fullscreen_last : Workspace :=
  mkWorkspace [2%nat] (Some (mkFullscreenSurface 1%nat 1%nat)).

Definition fht_fullscreen_last : Fht :=
  fht_with [out0] ws_fullscreen_last [(3%nat, out0)].

(** C1 (code): mapping window 3 puts window 1 back at index 0, in front of
    window 2, because the index is clamped to [len - 1] = 0; clamping into
    [[0, len]] as stated puts it back at index 1, where it was. *)
Theorem map_window_restore_index_code :
  match map_window false fht_fullscreen_last 3%nat with
  | Returned s' => (active (wset_for s' out0)).(windows)
  | Panicked => []
  end = [1%nat; 2%nat; 3%nat] /\
  (insert_window (restore_fullscreen_spec ws_fullscreen_last) 3%nat).(windows)
  = [2%nat; 1%nat; 3%nat].
Proof. split; reflexivity. Qed.

(** A window at (1000, 100), 1600x800, across [out0] and [out1]; its popup
    sits at (10, 20) from the toplevel. *)
Definition popup0 : PopupSurface := mkPopupSurface (Some 1%nat) (mkLoc 10 20).
Definition find_window0 : Fht -> WlSurface -> option FhtWindow := fun _ _ => Some 1%nat.
Definition spanning_geometry : FhtWindow -> Rect := fun _ => mkRect (mkLoc 1000 100) 1600 800.

(** C2 (code): for a window on both outputs the target handed to the
    positioner is the second output alone, (1920, 0, 1920, 1080)
    translated, not the union (0, 0, 3840, 1080) translated: the emptiness
    test drops the first visible output. *)
Theorem unconstrain_popup_two_outputs_code :
  unconstrain_popup find_window0 spanning_geometry
    (fht_with [out0; out1] empty_workspace []) popup0
  = Returned (Some (mkRect (mkLoc 910 (-120)) 1920 1080)) /\
  union_target_spec spanning_geometry (fht_with [out0; out1] empty_workspace []) popup0 1%nat
  = Some (mkRect (mkLoc (-1010) (-120)) 3840 1080).
Proof. split; reflexivity. Qed.

(** C3 (code): for a window visible on exactly one output the call panics
    ([next().unwrap()] on the exhausted iterator). *)
Theorem unconstrain_popup_one_output_panics :
  unconstrain_popup find_window0 (fun _ => mkRect (mkLoc 100 100) 800 600)
    (fht_with [out0] empty_workspace []) popup0
  = Panicked.
Proof. reflexivity. Qed.

(** ** Further properties of the shell operations *)

(** The fullscreen restore never panics and always empties the slot: the
    slot's window goes back at [min(last_known_idx, len - 1)] (index 0 in an
    empty sequence), the other windows keep their order. *)
Theorem restore_fullscreen_total (ws : Workspace) :
  exists ws', restore_fullscreen ws = Returned ws' /\ ws'.(fullscreen) = None /\
  match ws.(fullscreen) with
  | None => ws' = ws
  | Some fs =>
      let i := Nat.min fs.(last_known_idx) (List.length ws.(windows) - 1) in
      ws'.(windows) = firstn i ws.(windows) ++ fs.(inner) :: skipn i ws.(windows)
  end.
Proof.
  destruct ws as [wins [fs|]]; cbn.
  - unfold vec_insert.
    match goal with |- context [Nat.leb ?a ?b] => rewrite (proj2 (Nat.leb_le a b)) by lia end.
    eexists; split; [reflexivity|]. split; reflexivity.
  - eexists; split; [reflexivity|]. split; reflexivity.
Qed.

(** When the remembered index is inside the current sequence, the
    fullscreen window comes back exactly at that index. *)
Theorem restore_fullscreen_exact_index (ws : Workspace) (fs : FullscreenSurface)
  (Hfs : ws.(fullscreen) = Some fs)
  (Hin : (fs.(last_known_idx) < List.length ws.(windows))%nat) :
  exists ws', restore_fullscreen ws = Returned ws' /\
    nth_error ws'.(windows) fs.(last_known_idx) = Some fs.(inner) /\
    List.length ws'.(windows) = S (List.length ws.(windows)).
Proof.
  destruct (restore_fullscreen_total ws) as [ws' [Hr [_ Hw]]].
  rewrite Hfs in Hw; cbn in Hw.
  exists ws'; split; [exact Hr|].
  rewrite Nat.min_l in Hw by lia.
  rewrite Hw. split.
  - rewrite nth_error_app2; rewrite length_firstn, Nat.min_l by lia.
    + rewrite Nat.sub_diag. reflexivity.
    + lia.
  - rewrite length_app, length_firstn; cbn; rewrite length_skipn. lia.
Qed.

Lemma restore_fullscreen_exact_index_witness :
  exists ws', restore_fullscreen (mkWorkspace [4%nat; 5%nat; 6%nat] (Some (mkFullscreenSurface 9%nat 1%nat)))
              = Returned ws' /\
    nth_error ws'.(windows) 1 = Some 9%nat /\ List.length ws'.(windows) = 4%nat.
Proof.
  apply (restore_fullscreen_exact_index
           (mkWorkspace [4%nat; 5%nat; 6%nat] (Some (mkFullscreenSurface 9%nat 1%nat)))
           (mkFullscreenSurface 9%nat 1%nat)); cbn; [reflexivity | lia].
Defined.

Lemma position_first {A} (f : A -> bool) (pre post : list A) (a : A) :
  (forall b, In b pre -> f b = false) -> f a = true ->
  position f (pre ++ a :: post) = Some (List.length pre).
Proof.
  intros Hpre Ha. induction pre as [|b pre IH]; cbn.
  - rewrite Ha. reflexivity.
  - rewrite (Hpre b (or_introl eq_refl)), IH; [reflexivity|].
    intros c Hc; apply Hpre; right; exact Hc.
Qed.

Lemma remove_at_middle {A} (pre post : list A) (a : A) :
  remove_at (List.length pre) (pre ++ a :: post) = pre ++ post.
Proof. induction pre as [|b pre IH]; cbn; [reflexivity|]. rewrite IH. reflexivity. Qed.

Lemma nth_error_middle {A} (pre post : list A) (a : A) :
  nth_error (pre ++ a :: post) (List.length pre) = Some a.
Proof. induction pre as [|b pre IH]; cbn; [reflexivity|]. exact IH. Qed.

Lemma first_pending (window : FhtWindow) (pre : list (FhtWindow * Output)) :
  ~ In window (map fst pre) ->
  forall b : FhtWindow * Output, In b pre -> Nat.eqb (fst b) window = false.
Proof.
  intros Hnot [w o] Hb; cbn. apply Nat.eqb_neq. intros ->.
  apply Hnot, (in_map fst _ _ Hb).
Qed.

(** Mapping a pending window whose client is known, onto an output whose
    active workspace exists, returns normally: the window's first pending
    entry is removed, the window is configured tiled and not fullscreen, the
    focus moves to it exactly when [focus_new_windows] is set, and the
    workspace sets of every other output are untouched. *)
Theorem map_window_success (focus_new_windows : bool) (s : Fht) (window : FhtWindow)
  (output : Output) (pre post : list (FhtWindow * Output)) (c : Client)
  (Hpending : s.(pending_windows) = pre ++ (window, output) :: post)
  (Hfirst : ~ In window (map fst pre))
  (Hclient : s.(client_of) window = Some c)
  (Hactive : ((wset_for s output).(active_idx) < List.length (wset_for s output).(workspaces))%nat) :
  exists s', map_window focus_new_windows s window = Returned s' /\
    s'.(pending_windows) = pre ++ post /\
    s'.(window_state) window = mkWindowState true false /\
    s'.(focus_target) = (if focus_new_windows then Some (FT_Window window) else s.(focus_target)) /\
    (forall id, id <> output.(out_id) -> s'.(wsets) id = s.(wsets) id) /\
    s'.(outputs) = s.(outputs) /\ s'.(focus_output) = s.(focus_output).
Proof.
  unfold map_window. rewrite Hpending.
  erewrite position_first;
    [| exact (first_pending window pre Hfirst) | cbn; apply Nat.eqb_refl].
  rewrite nth_error_middle, remove_at_middle. cbn.
  rewrite Hclient.
  destruct (nth_error (workspaces (wset_for s output)) (active_idx (wset_for s output)))
    as [ws|] eqn:Hnth.
  2:{ apply nth_error_None in Hnth. lia. }
  destruct (restore_fullscreen_total ws) as [ws' [Hr _]]. rewrite Hr.
  eexists; split; [reflexivity|]. cbn.
  rewrite Nat.eqb_refl.
  split; [reflexivity|]. split; [reflexivity|]. split; [reflexivity|].
  split; [|split; reflexivity].
  intros id Hid. apply Nat.eqb_neq in Hid. rewrite Hid. reflexivity.
Qed.

Lemma map_window_success_witness :
  exists s', map_window true (fht_with [out0] ws_fullscreen_last [(3%nat, out0)]) 3%nat = Returned s' /\
    s'.(pending_windows) = [] /\
    s'.(window_state) 3%nat = mkWindowState true false /\
    s'.(focus_target) = Some (FT_Window 3%nat) /\
    (forall id, id <> 0%nat -> s'.(wsets) id = (fht_with [out0] ws_fullscreen_last [(3%nat, out0)]).(wsets) id) /\
    s'.(outputs) = [out0] /\ s'.(focus_output) = Some out0.
Proof.
  apply (map_window_success true (fht_with [out0] ws_fullscreen_last [(3%nat, out0)]) 3%nat out0
           [] [] 0%nat); cbn; [reflexivity | tauto | reflexivity | lia].
Defined.

(** A pending window whose surface has no live client makes [map_window]
    panic (the [unwrap] on [get_client]). *)
Theorem map_window_no_client_panics (focus_new_windows : bool) (s : Fht) (window : FhtWindow)
  (output : Output) (pre post : list (FhtWindow * Output))
  (Hpending : s.(pending_windows) = pre ++ (window, output) :: post)
  (Hfirst : ~ In window (map fst pre))
  (Hclient : s.(client_of) window = None) :
  map_window focus_new_windows s window = Panicked.
Proof.
  unfold map_window. rewrite Hpending.
  erewrite position_first;
    [| exact (first_pending window pre Hfirst) | cbn; apply Nat.eqb_refl].
  rewrite nth_error_middle. cbn. rewrite Hclient. reflexivity.
Qed.

Lemma map_window_no_client_panics_witness :
  map_window false
    {| outputs := [out0]; wsets := fun _ => mkWorkspaceSet [empty_workspace] 0;
       pending_windows := [(3%nat, out0)]; focus_output := Some out0; focus_target := None;
       window_state := fun _ => mkWindowState true false; client_of := fun _ => None |} 3%nat
  = Panicked.
Proof.
  apply (map_window_no_client_panics false _ 3%nat out0 [] []); cbn; [reflexivity | tauto | reflexivity].
Defined.

Section PopupFacts.

Variable find_window : Fht -> WlSurface -> option FhtWindow.
Variable global_geometry : FhtWindow -> Rect.

(** [unconstrain_popup] returns without constraining anything when the
    popup has no root, when the root is no mapped window, and when the
    window is on no output. *)
Theorem unconstrain_popup_noop_cases (s : Fht) (popup : PopupSurface) :
  (popup.(popup_root) = None ->
     unconstrain_popup find_window global_geometry s popup = Returned None) /\
  (forall root, popup.(popup_root) = Some root -> find_window s root = None ->
     unconstrain_popup find_window global_geometry s popup = Returned None) /\
  (forall root window, popup.(popup_root) = Some root -> find_window s root = Some window ->
     visible_outputs_for_window global_geometry s window = [] ->
     unconstrain_popup find_window global_geometry s popup = Returned None).
Proof.
  unfold unconstrain_popup.
  split; [intros ->; reflexivity|].
  split; [intros root -> ->; reflexivity|].
  intros root window -> -> ->. reflexivity.
Qed.

(** [unconstrain_popup] panics exactly when the popup's window is visible
    on exactly one output. *)
Theorem unconstrain_popup_panics_iff (s : Fht) (popup : PopupSurface) :
  unconstrain_popup find_window global_geometry s popup = Panicked <->
  exists root window o, popup.(popup_root) = Some root /\ find_window s root = Some window /\
    visible_outputs_for_window global_geometry s window = [o].
Proof.
  unfold unconstrain_popup. split.
  - intros H.
    destruct (popup_root popup) as [root|]; [|discriminate].
    destruct (find_window s root) as [window|] eqn:Hw; [|discriminate].
    destruct (visible_outputs_for_window global_geometry s window) as [|o [|o' os]] eqn:Hv;
      try discriminate.
    exists root, window, o. auto.
  - intros (root & window & o & -> & -> & ->). reflexivity.
Qed.

End PopupFacts.

(** [visible_windows_for_output]: a fullscreen window on the active
    workspace is the only visible window, with or without a workspace switch
    animation (whose target is in range). *)
Theorem visible_windows_fullscreen_only (s : Fht) (switch_animation : option nat)
  (output : Output) (fs : FullscreenSurface)
  (Hfs : (active (wset_for s output)).(fullscreen) = Some fs)
  (Hsw : forall t, switch_animation = Some t ->
         (t < List.length (wset_for s output).(workspaces))%nat) :
  visible_windows_for_output s switch_animation output = Returned [fs.(inner)].
Proof.
  unfold visible_windows_for_output.
  destruct switch_animation as [t|].
  - destruct (nth_error (workspaces (wset_for s output)) t) eqn:Hn.
    + rewrite Hfs. reflexivity.
    + apply nth_error_None in Hn. specialize (Hsw t eq_refl). lia.
  - rewrite Hfs. reflexivity.
Qed.

Lemma visible_windows_fullscreen_only_witness :
  visible_windows_for_output
    (fht_with [out0] (mkWorkspace [2%nat] (Some (mkFullscreenSurface 1%nat 0%nat))) [])
    (Some 0%nat) out0 = Returned [1%nat].
Proof.
  apply (visible_windows_fullscreen_only _ (Some 0%nat) out0 (mkFullscreenSurface 1%nat 0%nat));
    [reflexivity|].
  intros t Ht; injection Ht as <-; cbn; lia.
Defined.

(** [visible_windows_for_output] panics exactly when a switch animation
    targets a workspace index out of range. *)
Theorem visible_windows_panics_iff (s : Fht) (switch_animation : option nat) (output : Output) :
  visible_windows_for_output s switch_animation output = Panicked <->
  exists t, switch_animation = Some t /\ (List.length (wset_for s output).(workspaces) <= t)%nat.
Proof.
  unfold visible_windows_for_output.
  destruct switch_animation as [t|].
  - destruct (nth_error (workspaces (wset_for s output)) t) as [tw|] eqn:Hn.
    + split.
      * destruct (match option_map inner (fullscreen (active (wset_for s output))) with
                  | Some f => Some f | None => option_map inner (fullscreen tw) end);
          discriminate.
      * intros (t' & Ht & Hle). injection Ht as <-.
        apply nth_error_None in Hle. congruence.
    + split; [|reflexivity]. intros _. exists t. split; [reflexivity|].
      apply nth_error_None; exact Hn.
  - split.
    + destruct (option_map inner (fullscreen (active (wset_for s output)))); discriminate.
    + intros (t & Ht & _). discriminate.
Qed.

Lemma find_map_some {A B} (f : A -> option B) (l : list A) (b : B) :
  find_map f l = Some b -> exists a, In a l /\ f a = Some b.
Proof.
  induction l as [|a l IH]; cbn; [discriminate|].
  destruct (f a) eqn:Ha.
  - intros Hb; injection Hb as ->. exists a. auto.
  - intros Hl. destruct (IH Hl) as (a' & Hin & Hf). exists a'. auto.
Qed.

Lemma find_map_none {A B} (f : A -> option B) (l : list A) :
  find_map f l = None <-> forall a, In a l -> f a = None.
Proof.
  induction l as [|a l IH]; cbn.
  - split; [intros _ a []|reflexivity].
  - destruct (f a) eqn:Ha; split.
    + discriminate.
    + intros H. rewrite H in Ha by (left; reflexivity). discriminate.
    + intros Hl a' [<-|Hin]; [exact Ha|]. apply IH; assumption.
    + intros H. apply IH. intros a' Hin. apply H. right. exact Hin.
Qed.

Section VisibleOutputFacts.

Variable layer_for_surface : Output -> WlSurface -> bool.
Variable layer_surfaces : LayerSurface -> list WlSurface.
Variable has_surface : FhtWindow -> WlSurface -> bool.

(** A surface held by a layer map answers with an output whose layer map
    holds it, whatever pending layers and windows say. *)
Theorem visible_output_layer_first (s : Fht) (pending_layers : list (LayerSurface * Output))
  (surface : WlSurface)
  (Hlayer : exists o, In o s.(outputs) /\ layer_for_surface o surface = true) :
  exists o, visible_output_for_surface layer_for_surface layer_surfaces has_surface
              s pending_layers surface = Some o /\
    In o s.(outputs) /\ layer_for_surface o surface = true.
Proof.
  unfold visible_output_for_surface.
  destruct (find (fun o => layer_for_surface o surface) (outputs s)) as [o|] eqn:Hf.
  - exists o. split; [reflexivity|]. apply find_some in Hf. exact Hf.
  - destruct Hlayer as (o & Hin & Ho).
    pose proof (find_none _ _ Hf o Hin) as Hno. cbn in Hno. congruence.
Qed.

(** The answer is [None] exactly when no layer map holds the surface, no
    pending layer has it among its surfaces, and no window or fullscreen
    window of any output's active workspace has it. *)
Theorem visible_output_none_iff (s : Fht) (pending_layers : list (LayerSurface * Output))
  (surface : WlSurface) :
  visible_output_for_surface layer_for_surface layer_surfaces has_surface
    s pending_layers surface = None <->
  (forall o, In o s.(outputs) -> layer_for_surface o surface = false) /\
  (forall l o, In (l, o) pending_layers -> ~ In surface (layer_surfaces l)) /\
  (forall o, In o s.(outputs) ->
     (forall w, In w (active (wset_for s o)).(windows) -> has_surface w surface = false) /\
     (forall f, (active (wset_for s o)).(fullscreen) = Some f -> has_surface f.(inner) surface = false)).
Proof.
  unfold visible_output_for_surface.
  assert (Hpend : forall f : LayerSurface * Output -> option Output,
             f = (fun '(l, output) =>
                    if existsb (fun s' => Nat.eqb s' surface) (layer_surfaces l)
                    then Some output else None) ->
             (find_map f pending_layers = None <->
              forall l o, In (l, o) pending_layers -> ~ In surface (layer_surfaces l))).
  { intros f ->. rewrite find_map_none. split.
    - intros H l o Hin Hs. specialize (H _ Hin); cbn in H.
      destruct (existsb (fun s' => Nat.eqb s' surface) (layer_surfaces l)) eqn:He; [discriminate|].
      assert (existsb (fun s' => Nat.eqb s' surface) (layer_surfaces l) = true)
        by (apply existsb_exists; exists surface; split; [exact Hs | apply Nat.eqb_refl]).
      congruence.
    - intros H [l o] Hin. cbn.
      destruct (existsb (fun s' => Nat.eqb s' surface) (layer_surfaces l)) eqn:He; [|reflexivity].
      apply existsb_exists in He as (s' & Hs' & Heq). apply Nat.eqb_eq in Heq; subst s'.
      exfalso. exact (H l o Hin Hs'). }
  split.
  - destruct (find (fun o => layer_for_surface o surface) (outputs s)) eqn:Hf; [discriminate|].
    destruct (find_map _ pending_layers) eqn:Hp; [discriminate|].
    intros Hw. split; [exact (find_none _ _ Hf)|]. split; [apply (Hpend _ eq_refl); exact Hp|].
    intros o Ho. rewrite find_map_none in Hw.
    specialize (Hw (o, wset_for s o) (in_map (fun o => (o, wset_for s o)) _ _ Ho)). cbn in Hw.
    destruct (existsb (fun w => has_surface w surface) (windows (active (wset_for s o)))) eqn:He;
      [discriminate|].
    split.
    + intros w Hin. destruct (has_surface w surface) eqn:Hw'; [|reflexivity].
      assert (existsb (fun w => has_surface w surface) (windows (active (wset_for s o))) = true)
        by (apply existsb_exists; exists w; auto).
      congruence.
    + intros f Hf'. rewrite Hf' in Hw. destruct (has_surface (inner f) surface); [discriminate|reflexivity].
  - intros (Hl & Hp & Hw).
    destruct (find (fun o => layer_for_surface o surface) (outputs s)) as [o|] eqn:Hf.
    { apply find_some in Hf as [Hin Ho]. rewrite (Hl o Hin) in Ho. discriminate. }
    rewrite (proj2 (Hpend _ eq_refl) Hp).
    apply find_map_none. intros [o wset] Hin.
    unfold workspaces_of in Hin. apply in_map_iff in Hin as (o' & Heq & Ho'). injection Heq as <- <-.
    destruct (Hw o' Ho') as [Hws Hfs].
    replace (existsb (fun w => has_surface w surface) (windows (active (wset_for s o')))) with false.
    2:{ symmetry. apply Bool.not_true_iff_false. intros He.
        apply existsb_exists in He as (w & Hin & Hsw). rewrite (Hws w Hin) in Hsw. discriminate. }
    destruct (fullscreen (active (wset_for s o'))) as [f|] eqn:Hfo; [|reflexivity].
    rewrite (Hfs f eq_refl). reflexivity.
Qed.

End VisibleOutputFacts.

(** Surface 4 is a layer surface of [out1], and also a surface of the
    active window 2 on [out0]. *)
Lemma visible_output_layer_first_witness :
  exists o, visible_output_for_surface
              (fun o surf => Nat.eqb o.(out_id) 1 && Nat.eqb surf 4)
              (fun _ => []) (fun w surf => Nat.eqb w 2 && Nat.eqb surf 4)
              (fht_with [out0; out1] (mkWorkspace [2%nat] None) []) [] 4%nat = Some o /\
    In o [out0; out1] /\ (Nat.eqb o.(out_id) 1 && Nat.eqb 4 4)%bool = true.
Proof.
  apply (visible_output_layer_first
           (fun o surf => Nat.eqb o.(out_id) 1 && Nat.eqb surf 4)
           (fun _ => []) (fun w surf => Nat.eqb w 2 && Nat.eqb surf 4)
           (fht_with [out0; out1] (mkWorkspace [2%nat] None) []) [] 4%nat).
  exists out1. split; [cbn; auto | reflexivity].
Defined.

Section MoveFacts.

Variable wl_surface : FhtWindow -> option WlSurface.
Variable window_geometry : FhtWindow -> Rect.
Variable has_toplevel : FhtWindow -> bool.
Variable surface_client : WlSurface -> option Client.

(** A move request with a stale serial, without a grab focus, for a window
    without a surface, or whose grab focus belongs to another client,
    changes nothing. *)
Theorem handle_move_request_rejected (st : MoveState) (window : FhtWindow) (serial : Serial)
  (Hbad : has_grab st serial = false \/
          wl_surface window = None \/
          (forall sd, grab_start_data st = Some sd -> sd.(start_focus) = None) \/
          (forall sd f l surf, grab_start_data st = Some sd -> sd.(start_focus) = Some (f, l) ->
             wl_surface window = Some surf -> same_client_as surface_client f surf = false)) :
  handle_move_request wl_surface window_geometry has_toplevel surface_client st window serial = st.
Proof.
  unfold handle_move_request.
  destruct (has_grab st serial) eqn:Hg; [|reflexivity]. cbn.
  destruct (grab_start_data st) as [sd|] eqn:Hsd; [|reflexivity].
  destruct (wl_surface window) as [surf|] eqn:Hs; [|reflexivity].
  destruct (start_focus sd) as [[f l]|] eqn:Hf; [|reflexivity].
  destruct (same_client_as surface_client f surf) eqn:Hc; [|reflexivity].
  exfalso.
  destruct Hbad as [H|[H|[H|H]]].
  - discriminate.
  - discriminate.
  - rewrite (H sd eq_refl) in Hf. discriminate.
  - rewrite (H sd f l surf eq_refl Hf eq_refl) in Hc. discriminate.
Qed.

(** An accepted move request installs a [MoveSurfaceGrab] for the window
    under the request's serial and clears the pointer focus. The window
    ends neither maximized nor fullscreen. A window that was maximized or
    fullscreen is anchored at the pointer position (truncated to [i32]) and
    gets one configure when it is an xdg toplevel; any other window keeps
    its geometry's origin as anchor and gets no configure. No other
    window's state changes. *)
Theorem handle_move_request_accepted (st : MoveState) (window : FhtWindow) (serial : Serial)
  (sd : GrabStartData) (f : WlSurface) (l : Loc) (surf : WlSurface)
  (Hg : has_grab st serial = true) (Hsd : grab_start_data st = Some sd)
  (Hf : sd.(start_focus) = Some (f, l)) (Hs : wl_surface window = Some surf)
  (Hc : same_client_as surface_client f surf = true) :
  let st' := handle_move_request wl_surface window_geometry has_toplevel surface_client st window serial in
  let jumped := (st.(maximized) window || st.(is_fullscreen) window)%bool in
  st'.(pointer_grab) =
    Some (serial, MoveSurfaceGrab sd window
                    (if jumped
                     then mkLoc (f64_as_i32 (fst st.(pointer_location))) (f64_as_i32 (snd st.(pointer_location)))
                     else (window_geometry window).(loc))) /\
  st'.(pointer_focus) = None /\
  st'.(maximized) window = false /\
  st'.(is_fullscreen) window = false /\
  st'.(configures_sent) window =
    (if (jumped && has_toplevel window)%bool then S (st.(configures_sent) window)
     else st.(configures_sent) window) /\
  (forall w', w' <> window ->
     st'.(maximized) w' = st.(maximized) w' /\ st'.(is_fullscreen) w' = st.(is_fullscreen) w' /\
     st'.(configures_sent) w' = st.(configures_sent) w').
Proof.
  cbn zeta. unfold handle_move_request.
  rewrite Hg, Hsd, Hs, Hf, Hc. cbn.
  unfold set_flag.
  destruct (maximized st window) eqn:Hm, (is_fullscreen st window) eqn:Hfs, (has_toplevel window);
    cbn; rewrite ?Nat.eqb_refl;
    (split; [reflexivity|]); (split; [reflexivity|]);
    (split; [assumption || reflexivity|]); (split; [reflexivity|]);
    (split; [reflexivity|]);
    intros w' Hw'; apply Nat.eqb_neq in Hw'; rewrite ?Hw'; auto.
Qed.

End MoveFacts.

(** Window 1 (surface 1, xdg toplevel) is maximized; the pointer's implicit
    grab, serial 5, started on surface 1; one client owns every surface. *)
Definition move_state0 : MoveState :=
  {| pointer_grab := Some (5%nat, OtherGrab (mkGrabStartData (Some (1%nat, mkLoc 0 0))));
     pointer_focus := Some 1%nat;
     pointer_location := (640.75%float, 360.25%float);
     maximized := fun w => Nat.eqb w 1;
     is_fullscreen := fun _ => false;
     configures_sent := fun _ => 0%nat |}.

Lemma handle_move_request_rejected_witness :
  handle_move_request (fun w => Some w) (fun _ => mkRect (mkLoc 10 20) 800 600) (fun _ => true)
    (fun _ => Some 0%nat) move_state0 1%nat 6%nat = move_state0.
Proof.
  apply handle_move_request_rejected. left. reflexivity.
Defined.

Lemma handle_move_request_accepted_witness :
  let st' := handle_move_request (fun w => Some w) (fun _ => mkRect (mkLoc 10 20) 800 600)
               (fun _ => true) (fun _ => Some 0%nat) move_state0 1%nat 5%nat in
  st'.(pointer_grab) =
    Some (5%nat, MoveSurfaceGrab (mkGrabStartData (Some (1%nat, mkLoc 0 0))) 1%nat
                   (if (move_state0.(maximized) 1%nat || move_state0.(is_fullscreen) 1%nat)%bool
                    then mkLoc (f64_as_i32 (fst move_state0.(pointer_location)))
                               (f64_as_i32 (snd move_state0.(pointer_location)))
                    else mkLoc 10 20)) /\
  st'.(pointer_focus) = None /\
  st'.(maximized) 1%nat = false /\
  st'.(is_fullscreen) 1%nat = false /\
  st'.(configures_sent) 1%nat =
    (if ((move_state0.(maximized) 1%nat || move_state0.(is_fullscreen) 1%nat) && true)%bool
     then S (move_state0.(configures_sent) 1%nat) else move_state0.(configures_sent) 1%nat) /\
  (forall w', w' <> 1%nat ->
     st'.(maximized) w' = move_state0.(maximized) w' /\
     st'.(is_fullscreen) w' = move_state0.(is_fullscreen) w' /\
     st'.(configures_sent) w' = move_state0.(configures_sent) w').
Proof.
  apply (handle_move_request_accepted (fun w => Some w) (fun _ => mkRect (mkLoc 10 20) 800 600)
           (fun _ => true) (fun _ => Some 0%nat) move_state0 1%nat 5%nat
           (mkGrabStartData (Some (1%nat, mkLoc 0 0))) 1%nat (mkLoc 0 0) 1%nat);
    reflexivity.
Defined.

(** Evaluated: the maximized window jumps to the pointer, (640, 360). *)
Example handle_move_request_anchor :
  match (handle_move_request (fun w => Some w) (fun _ => mkRect (mkLoc 10 20) 800 600)
           (fun _ => true) (fun _ => Some 0%nat) move_state0 1%nat 5%nat).(pointer_grab) with
  | Some (_, MoveSurfaceGrab _ _ anchor) => anchor = mkLoc 640 360
  | _ => False
  end.
Proof. vm_compute. reflexivity. Qed.

End ShellFacts.
